(** * RocketFlightSim: entity constructors of [rocket_classes.py]

    A shallow embedding of the constructors of [Motor], [Rocket],
    [LaunchConditions] and [Airbrakes], and the properties of the
    quantities they derive.

    Conventions of the embedding.
    - Python numbers are idealised as exact rationals ([Q]); two numbers are
      the same dictionary key when they are equal as numbers ([Qeq]), as
      [1] and [1.0] are in Python.  The code computes in binary64: which
      operations it applies, in which order and to which entries is as
      modelled, while an equality or a bound between computed values holds
      of the code up to rounding, and says so where it is stated.
    - [Motor.total_impulse] is a NumPy scalar, so a division by it follows
      NumPy's rules: dividing by zero raises nothing and yields [inf] or
      [nan].  Both are the one value [NonFin] of [num]; every operation the
      constructor applies afterwards ([* fuel_mass], subtraction from the
      previous fuel mass) keeps a non-finite value non-finite.
    - A [dict] is an association list in insertion order: [list(d.keys())]
      is the list of its first components.
    - A Python exception is a [Raise] result. *)

From Stdlib Require Import QArith List Bool Lia Lqa.
From Stdlib Require String.
Import ListNotations.

Local Open Scope Q_scope.

(** ** Exceptions and results *)

Inductive exn : Type :=
| KeyError (k : Q)      (* [d[k]] with [k] not a key of [d] *)
| ValueError.           (* [max()] of an empty sequence *)

Inductive result (A : Type) : Type :=
| Ok (a : A)
| Raise (e : exn).

Arguments Ok {A} a.
Arguments Raise {A} e.

Definition bind {A B : Type} (r : result A) (k : A -> result B) : result B :=
  match r with
  | Ok a => k a
  | Raise e => Raise e
  end.

Notation "x <- r ;; k" := (bind r (fun x => k))
  (at level 61, r at next level, right associativity).

(** ** Numbers that may be non-finite *)

Inductive num : Type :=
| Fin (q : Q)
| NonFin.

(** [x / y] with [y] a NumPy float: no exception when [y] is zero. *)
Definition np_truediv (x y : Q) : num :=
  if Qeq_bool y 0 then NonFin else Fin (x / y).

Definition num_mul (a : num) (q : Q) : num :=
  match a with
  | Fin x => Fin (x * q)
  | NonFin => NonFin
  end.

Definition num_sub (a b : num) : num :=
  match a, b with
  | Fin x, Fin y => Fin (x - y)
  | _, _ => NonFin
  end.

(** Truthiness of a number: [if x:] holds unless [x] is zero. *)
Definition truthy (x : Q) : bool := negb (Qeq_bool x 0).

(** Truthiness of an argument whose default is [None]. *)
Definition truthy_opt (o : option Q) : bool :=
  match o with
  | Some x => truthy x
  | None => false
  end.

(** ** Dictionaries keyed by numbers *)

Module Dict.

Definition t (V : Type) : Type := list (Q * V).

Definition keys {V} (d : t V) : list Q := map fst d.
Definition values {V} (d : t V) : list V := map snd d.

Fixpoint get {V} (d : t V) (k : Q) : option V :=
  match d with
  | [] => None
  | (k', v) :: d' => if Qeq_bool k' k then Some v else get d' k
  end.

(** [d[k]] *)
Definition getitem {V} (d : t V) (k : Q) : result V :=
  match get d k with
  | Some v => Ok v
  | None => Raise (KeyError k)
  end.

(** [d[k] = v]: an existing key keeps its place (and its key object),
    a new key goes last. *)
Fixpoint setitem {V} (d : t V) (k : Q) (v : V) : t V :=
  match d with
  | [] => [(k, v)]
  | (k', v') :: d' =>
      if Qeq_bool k' k then (k', v) :: d' else (k', v') :: setitem d' k v
  end.

(** [k in d] *)
Definition mem {V} (d : t V) (k : Q) : bool :=
  match get d k with
  | Some _ => true
  | None => false
  end.

End Dict.

(** ** NumPy and builtins used by the constructors *)

Definition Qltb (x y : Q) : bool := negb (Qle_bool y x).

(** [np.trapz(y, x)]: the sum of [d * (y[1:] + y[:-1]) / 2.0] with
    [d = np.diff(x)]; [0.0] when there are fewer than two samples. *)
Fixpoint np_trapz (y x : list Q) : Q :=
  match y, x with
  | y0 :: ((y1 :: _) as y'), x0 :: ((x1 :: _) as x') =>
      (x1 - x0) * (y1 + y0) / 2 + np_trapz y' x'
  | _, _ => 0
  end.

(** [max(l)]: the first of the greatest items; [ValueError] on an empty
    sequence. *)
Definition py_max (l : list Q) : result Q :=
  match l with
  | [] => Raise ValueError
  | x :: l' => Ok (fold_left (fun m y => if Qltb m y then y else m) l' x)
  end.

(** An optional argument: [None] when the caller leaves it out. *)
Definition default (d : Q) (o : option Q) : Q :=
  match o with
  | Some x => x
  | None => d
  end.

(** ** class Motor *)

Module Motor.

Record t : Type := mk {
  dry_mass : Q;
  thrust_curve : Dict.t Q;
  total_impulse : Q;
  burn_time : Q;
  fuel_mass_curve : Dict.t num;
  fuel_mass : num
}.

(** The loop [for t in range(1, len(times))] of the proportional branch:
    [prev] is [times[t-1]], [rest] is [times[t:]] and [curve] is
    [self.fuel_mass_curve] so far. *)
Fixpoint deplete (tc : Dict.t Q) (I F : Q) (prev : Q) (rest : list Q)
    (curve : Dict.t num) : result (Dict.t num) :=
  match rest with
  | [] => Ok curve
  | cur :: rest' =>
      m_prev <- Dict.getitem curve prev ;;
      th_cur <- Dict.getitem tc cur ;;
      th_prev <- Dict.getitem tc prev ;;
      deplete tc I F cur rest'
        (Dict.setitem curve cur
           (num_sub m_prev
              (num_mul
                 (np_truediv ((th_cur + th_prev) / 2 * (cur - prev)) I) F)))
  end.

(** The branch [elif fuel_mass:]. *)
Definition proportional (tc : Dict.t Q) (I F : Q) : result (Dict.t num) :=
  match Dict.keys tc with
  | [] => Ok [(0, Fin F)]
  | t0 :: rest => deplete tc I F t0 rest [(0, Fin F)]
  end.

(** [Motor.__init__].  [fmc] and [fm] are the arguments
    [fuel_mass_curve] and [fuel_mass], [None] by default. *)
Definition init (dry : Q) (tc : Dict.t Q)
    (fmc : option (Dict.t num)) (fm : option Q) : result t :=
  let I := np_trapz (Dict.values tc) (Dict.keys tc) in
  bt <- py_max (Dict.keys tc) ;;
  let no_fuel :=
    mk dry tc I bt (Dict.setitem [(0, Fin 0)] bt (Fin 0)) (Fin 0) in
  match fmc with
  | Some ((_ :: _) as c) =>
      m0 <- Dict.getitem c 0 ;;
      Ok (mk dry tc I bt c m0)
  | _ =>
      match fm with
      | Some F =>
          if truthy F then
            curve <- proportional tc I F ;;
            Ok (mk dry tc I bt curve (Fin F))
          else Ok no_fuel
      | None => Ok no_fuel
      end
  end.

End Motor.

(** ** class Rocket *)

(** [Cd_rocket_at_Ma] is a number or a callable of the Mach number;
    [callable(Cd_rocket_at_Ma)] tells which. *)
Inductive drag_coefficient : Type :=
| Constant (c : Q)
| Callable (f : Q -> Q).

Module Rocket.

Record t : Type := mk {
  rocket_mass : Q;
  motor : Motor.t;
  A_rocket : Q;
  Cd_rocket_at_Ma : drag_coefficient;
  h_second_rail_button : Q;
  dry_mass : Q;
  Cd_A_rocket : Q -> Q
}.

(** [Rocket.__init__]; the defaults are [Cd_rocket_at_Ma = 0.45] and
    [h_second_rail_button = 0.69]. *)
Definition init (rocket_mass : Q) (motor : Motor.t) (A_rocket : Q)
    (Cd_arg : option drag_coefficient) (h_arg : option Q) : t :=
  let Cd_rocket_at_Ma :=
    match Cd_arg with
    | Some cd => cd
    | None => Constant (45 # 100)
    end in
  let h_second_rail_button := default (69 # 100) h_arg in
  let Cd_A_rocket_fn :=
    match Cd_rocket_at_Ma with
    | Callable f => fun Ma => f Ma * A_rocket
    | Constant c => fun Ma => c * A_rocket
    end in
  mk rocket_mass motor A_rocket Cd_rocket_at_Ma h_second_rail_button
     (rocket_mass + Motor.dry_mass motor) Cd_A_rocket_fn.

End Rocket.

(** ** class LaunchConditions *)

Module LaunchConditions.

Record t : Type := mk {
  launchpad_pressure : Q;
  launchpad_temp : Q;
  L_launch_rail : Q;
  launch_rail_elevation : Q;
  launch_rail_direction : Q;
  local_T_lapse_rate : Q;
  local_gravity : Q;
  mean_wind_speed : Q;
  wind_heading : Q
}.

Section Collaborators.

(** The modules [constants] and [helper_functions] of the package:
    [con.T_lapse_rate], [con.F_gravity] and
    [hfunc.get_local_gravity(latitude, altitude)]. *)
Variable T_lapse_rate : Q.
Variable F_gravity : Q.
Variable get_local_gravity : Q -> Q -> Q.

(** The [if local_gravity: ... elif latitude: ... else: ...] of
    [__init__]. *)
Definition resolve_gravity (local_gravity latitude : option Q)
    (altitude : Q) : Q :=
  match local_gravity with
  | Some g =>
      if truthy g then g
      else
        match latitude with
        | Some lat =>
            if truthy lat then get_local_gravity lat altitude
            else F_gravity
        | None => F_gravity
        end
  | None =>
      match latitude with
      | Some lat =>
          if truthy lat then get_local_gravity lat altitude
          else F_gravity
      | None => F_gravity
      end
  end.

(** [LaunchConditions.__init__]; the defaults are
    [launch_rail_elevation = 90], [launch_rail_direction = 0],
    [local_gravity = None], [local_T_lapse_rate = con.T_lapse_rate],
    [latitude = None], [altitude = 0], [mean_wind_speed = 0] and
    [wind_heading = 0]. *)
Definition init (launchpad_pressure launchpad_temp L_launch_rail : Q)
    (launch_rail_elevation launch_rail_direction : option Q)
    (local_gravity local_T_lapse_rate latitude altitude : option Q)
    (mean_wind_speed wind_heading : option Q) : t :=
  mk launchpad_pressure
     (launchpad_temp + (27315 # 100))
     L_launch_rail
     (default 90 launch_rail_elevation)
     (default 0 launch_rail_direction)
     (default T_lapse_rate local_T_lapse_rate)
     (resolve_gravity local_gravity latitude (default 0 altitude))
     (default 0 mean_wind_speed)
     (default 0 wind_heading).

End Collaborators.

End LaunchConditions.

(** ** class Airbrakes *)

Module Airbrakes.

Record t : Type := mk {
  num_flaps : Z;
  A_flap : Q;
  Cd_brakes : Q;
  max_deployment_angle : Q;
  max_deployment_rate : Q;
  max_retraction_rate : Q
}.

(** [Airbrakes.__init__]; [max_retraction_rate] is [None] by default. *)
Definition init (num_flaps : Z)
    (A_flap Cd_brakes max_deployment_angle max_deployment_rate : Q)
    (max_retraction_rate : option Q) : t :=
  mk num_flaps A_flap Cd_brakes max_deployment_angle max_deployment_rate
     (match max_retraction_rate with
      | Some r => if truthy r then r else max_deployment_rate
      | None => max_deployment_rate
      end).

End Airbrakes.

(** ** Predicates on thrust curves *)

(** The keys are strictly increasing in insertion order. *)
Fixpoint increasing (l : list Q) : bool :=
  match l with
  | x :: ((y :: _) as l') => Qltb x y && increasing l'
  | _ => true
  end.

(** Pairwise different keys, as the keys of every Python dict are. *)
Fixpoint distinct (l : list Q) : Prop :=
  match l with
  | [] => True
  | x :: l' => (forall y, In y l' -> ~ y == x) /\ distinct l'
  end.

(** [fuel_mass_curve] is left out or is the empty dict. *)
Definition no_curve (fmc : option (Dict.t num)) : Prop :=
  fmc = None \/ fmc = Some [].

(** Entries that [curve'] shares with [curve]. *)
Definition extends (curve curve' : Dict.t num) : Prop :=
  forall k v, Dict.get curve k = Some v -> Dict.get curve' k = Some v.

(** What one pass of the loop of [Motor.deplete] leaves in [curve] for the
    consecutive sample times of [prev :: rest]. *)
Fixpoint chain (tc : Dict.t Q) (I F : Q) (curve : Dict.t num)
    (prev : Q) (rest : list Q) : Prop :=
  match rest with
  | [] => True
  | cur :: rest' =>
      (exists m_prev th_cur th_prev,
          Dict.get curve prev = Some m_prev /\
          Dict.get tc cur = Some th_cur /\
          Dict.get tc prev = Some th_prev /\
          Dict.get curve cur =
            Some (num_sub m_prev
                    (num_mul
                       (np_truediv ((th_cur + th_prev) / 2 * (cur - prev)) I)
                       F))) /\
      chain tc I F curve cur rest'
  end.

(** Every thrust sample is non-negative. *)
Definition nonneg (l : list Q) : bool := forallb (Qle_bool 0) l.

(** The trapezoidal sum as the specification words it: over consecutive
    samples, [(thrust[t_i] + thrust[t_{i-1}]) / 2 * (t_i - t_{i-1})]. *)
Fixpoint trapezoid_sum (tc : Dict.t Q) : Q :=
  match tc with
  | (t0, y0) :: (((t1, y1) :: _) as tc') =>
      (y1 + y0) / 2 * (t1 - t0) + trapezoid_sum tc'
  | _ => 0
  end.

(** The thrust curve of the end-to-end example. *)
Definition example_thrust_curve : Dict.t Q :=
  [(0, 0); (1, 1000); (2, 500); (3, 0)].

(** A motor that never produces thrust. *)
Definition zero_thrust_curve : Dict.t Q := [(0, 0); (1, 0); (2, 0)].

(** A thrust curve with a single sample, not at time 0. *)
Definition single_sample_curve : Dict.t Q := [(5, 10)].

(** Stand-ins for [con.T_lapse_rate], [con.F_gravity] and
    [hfunc.get_local_gravity] in the examples: the values the docstring of
    [LaunchConditions.__init__] gives for the constants, and some function of
    latitude and altitude. *)
Definition sample_T_lapse_rate : Q := - (65 # 10000).
Definition sample_F_gravity : Q := 980665 # 100000.
Definition sample_gravity_model (latitude altitude : Q) : Q :=
  (978 # 100) + latitude * (5 # 10000) - altitude * (3 # 1000000).

(** A short burn, for the examples with a negative fuel mass. *)
Definition ramp_thrust_curve : Dict.t Q := [(0, 0); (1, 1000)].

(** ** class PastFlight *)

Module PastFlight.

Record t : Type := mk {
  rocket : Rocket.t;
  launch_conditions : LaunchConditions.t;
  apogee : option Q;
  name : option String.string
}.

(** [PastFlight.__init__]; [apogee] and [name] are [None] by default. *)
Definition init (rocket : Rocket.t) (launch_conditions : LaunchConditions.t)
    (apogee : option Q) (name : option String.string) : t :=
  mk rocket launch_conditions apogee name.

End PastFlight.

(** ** Quantities used to state what the constructors derive *)



(** * Properties *)

(** ** Dictionaries *)

Section DictFacts.

Context {V : Type}.
Implicit Types (d : Dict.t V) (k : Q) (v : V).

Lemma get_key_eq d k k' : k == k' -> Dict.get d k = Dict.get d k'.
Proof.
  intros E. induction d as [|[k0 v0] d IH]; simpl; [reflexivity|].
  destruct (Qeq_bool k0 k) eqn:E1, (Qeq_bool k0 k') eqn:E2; auto.
  - apply Qeq_bool_eq in E1. apply Qeq_bool_neq in E2.
    elim E2. now rewrite E1.
  - apply Qeq_bool_eq in E2. apply Qeq_bool_neq in E1.
    elim E1. now rewrite E2, E.
Qed.

Lemma get_setitem_eq d k k' v :
  k == k' -> Dict.get (Dict.setitem d k v) k' = Some v.
Proof.
  intros E. apply Qeq_bool_iff in E.
  induction d as [|[k0 v0] d IH]; simpl.
  - now rewrite E.
  - destruct (Qeq_bool k0 k) eqn:E1; simpl.
    + now rewrite (Qeq_bool_trans _ _ _ E1 E).
    + destruct (Qeq_bool k0 k') eqn:E2; [|exact IH].
      apply Qeq_bool_sym in E.
      now rewrite (Qeq_bool_trans _ _ _ E2 E) in E1.
Qed.

Lemma get_setitem_neq d k k' v :
  ~ k == k' -> Dict.get (Dict.setitem d k v) k' = Dict.get d k'.
Proof.
  intros N. induction d as [|[k0 v0] d IH]; simpl.
  - destruct (Qeq_bool k k') eqn:E; [|reflexivity].
    now apply Qeq_bool_eq in E.
  - destruct (Qeq_bool k0 k) eqn:E1; simpl.
    + destruct (Qeq_bool k0 k') eqn:E2; [|reflexivity].
      apply Qeq_bool_eq in E1, E2. elim N. now rewrite <- E1.
    + now rewrite IH.
Qed.

Lemma keys_setitem_fresh d k v :
  Dict.get d k = None -> Dict.keys (Dict.setitem d k v) = Dict.keys d ++ [k].
Proof.
  induction d as [|[k0 v0] d IH]; simpl; [reflexivity|].
  destruct (Qeq_bool k0 k); [discriminate|].
  intros H. simpl. f_equal. now apply IH.
Qed.

Lemma get_Some_In d k v :
  Dict.get d k = Some v -> exists k', In (k', v) d /\ k' == k.
Proof.
  induction d as [|[k0 v0] d IH]; simpl; [discriminate|].
  destruct (Qeq_bool k0 k) eqn:E.
  - intros [= <-]. exists k0. split; [now left | now apply Qeq_bool_eq].
  - intros H. destruct (IH H) as (k' & Hin & Hk). exists k'. auto.
Qed.

Lemma get_None_keys d k :
  Dict.get d k = None -> forall k', In k' (Dict.keys d) -> ~ k' == k.
Proof.
  induction d as [|[k0 v0] d IH]; simpl; [tauto|].
  destruct (Qeq_bool k0 k) eqn:E; [discriminate|].
  intros H k' [<-|Hin]; [now apply Qeq_bool_neq | now apply IH].
Qed.

Lemma In_keys_get d k :
  In k (Dict.keys d) -> exists v, Dict.get d k = Some v.
Proof.
  intros Hin. destruct (Dict.get d k) as [v|] eqn:E; [now exists v|].
  now elim (get_None_keys _ _ E k Hin).
Qed.

Lemma mem_get d k : Dict.mem d k = true <-> exists v, Dict.get d k = Some v.
Proof.
  unfold Dict.mem. destruct (Dict.get d k) as [v|].
  - split; [now exists v | reflexivity].
  - split; [discriminate | now intros [v [=]]].
Qed.

Lemma mem_keys d k :
  Dict.mem d k = true <-> exists k', In k' (Dict.keys d) /\ k' == k.
Proof.
  rewrite mem_get. split.
  - intros [v Hv]. destruct (get_Some_In _ _ _ Hv) as (k' & Hin & Hk).
    exists k'. split; [|exact Hk].
    unfold Dict.keys. now apply (in_map fst) in Hin.
  - intros (k' & Hin & Hk).
    destruct (In_keys_get _ _ Hin) as [v Hv]. exists v.
    now rewrite <- (get_key_eq d _ _ Hk).
Qed.

End DictFacts.

(** ** Strictly increasing keys *)

Lemma Qltb_lt x y : Qltb x y = true <-> x < y.
Proof.
  unfold Qltb. rewrite negb_true_iff. split.
  - intros H. apply Qnot_le_lt. intros L.
    apply Qle_bool_iff in L. congruence.
  - intros H. destruct (Qle_bool y x) eqn:E; [|reflexivity].
    apply Qle_bool_iff in E. now elim (Qlt_not_le _ _ H).
Qed.

Lemma increasing_tail x l : increasing (x :: l) = true -> increasing l = true.
Proof.
  destruct l as [|y l]; [reflexivity|]. simpl.
  now intros [_ H]%andb_true_iff.
Qed.

Lemma increasing_head x l :
  increasing (x :: l) = true -> forall y, In y l -> x < y.
Proof.
  revert x. induction l as [|z l IH]; intros x H y Hin; [easy|].
  simpl in H. apply andb_true_iff in H as [Hxz Hl]. apply Qltb_lt in Hxz.
  destruct Hin as [<-|Hin]; [exact Hxz|].
  apply Qlt_trans with z; [exact Hxz | now apply IH].
Qed.

Lemma increasing_distinct l : increasing l = true -> distinct l.
Proof.
  induction l as [|x l IH]; simpl; [easy|]. intros H. split.
  - intros y Hin E. pose proof (increasing_head _ _ H y Hin) as L.
    rewrite E in L. now apply Qlt_irrefl in L.
  - apply IH. now apply increasing_tail in H.
Qed.

(** ** The proportional-depletion loop *)

Section Deplete.

Variable tc : Dict.t Q.
Variables I F : Q.

Lemma getitem_Some {V} (d : Dict.t V) k v :
  Dict.get d k = Some v -> Dict.getitem d k = Ok v.
Proof. unfold Dict.getitem. now intros ->. Qed.

Lemma chain_extends curve curve' prev rest :
  extends curve curve' ->
  chain tc I F curve prev rest -> chain tc I F curve' prev rest.
Proof.
  intros X. revert prev. induction rest as [|cur rest IH]; simpl; [easy|].
  intros prev [(mp & thc & thp & H1 & H2 & H3 & H4) Hc]. split.
  - exists mp, thc, thp. auto.
  - now apply IH.
Qed.

Lemma deplete_spec rest : forall prev curve m_prev,
  Dict.get curve prev = Some m_prev ->
  (forall k, In k rest -> Dict.get curve k = None) ->
  distinct rest ->
  (forall k, In k (prev :: rest) -> exists th, Dict.get tc k = Some th) ->
  exists curve',
    Motor.deplete tc I F prev rest curve = Ok curve' /\
    Dict.keys curve' = Dict.keys curve ++ rest /\
    extends curve curve' /\
    chain tc I F curve' prev rest.
Proof.
  induction rest as [|cur rest IH]; intros prev curve mp Hprev Hfresh Hd Htc.
  - exists curve. simpl. rewrite app_nil_r. repeat split; auto.
    now intros k v.
  - destruct (Htc cur) as [thc Hthc]; [simpl; auto|].
    destruct (Htc prev) as [thp Hthp]; [simpl; auto|].
    simpl. rewrite (getitem_Some _ _ _ Hprev), (getitem_Some _ _ _ Hthc),
      (getitem_Some _ _ _ Hthp). simpl.
    set (v := num_sub mp _).
    assert (Hcur : Dict.get curve cur = None) by (apply Hfresh; now left).
    destruct Hd as [Hd1 Hd2].
    destruct (IH cur (Dict.setitem curve cur v) v)
      as (curve' & Hrun & Hkeys & Hext & Hchain).
    + now apply get_setitem_eq.
    + intros k Hin. rewrite get_setitem_neq.
      * apply Hfresh. now right.
      * intros E. now apply (Hd1 k Hin).
    + exact Hd2.
    + intros k Hin. apply Htc. now right.
    + assert (Hold : extends curve curve').
      { intros k w Hk. apply Hext. rewrite get_setitem_neq; [exact Hk|].
        intros E. rewrite (get_key_eq curve _ _ E) in Hcur. congruence. }
      exists curve'. split; [exact Hrun|]. split; [|split; [exact Hold|]].
      * rewrite Hkeys, (keys_setitem_fresh _ _ _ Hcur), <- app_assoc.
        reflexivity.
      * split; [|exact Hchain].
        exists mp, thc, thp. repeat split; auto.
        apply Hext. now apply get_setitem_eq.
Qed.

End Deplete.

(** ** [max] *)

Lemma fold_max_spec l : forall x,
  let m := fold_left (fun m y => if Qltb m y then y else m) l x in
  (m = x \/ In m l) /\ x <= m /\ (forall y, In y l -> y <= m).
Proof.
  induction l as [|z l IH]; intros x; simpl.
  - split; [now left|]. split; [apply Qle_refl | tauto].
  - destruct (Qltb x z) eqn:E.
    + destruct (IH z) as (Hin & Hle & Hall). apply Qltb_lt in E.
      split; [destruct Hin; auto|]. split.
      * apply Qle_trans with z; [now apply Qlt_le_weak | exact Hle].
      * intros y [<-|Hy]; auto.
    + destruct (IH x) as (Hin & Hle & Hall).
      assert (z <= x).
      { apply Qnot_lt_le. intros L. apply Qltb_lt in L. congruence. }
      split; [destruct Hin; auto|]. split; [exact Hle|].
      intros y [<-|Hy]; [now apply Qle_trans with x | auto].
Qed.

Lemma py_max_spec l :
  l <> [] ->
  exists m, py_max l = Ok m /\ In m l /\ (forall y, In y l -> y <= m).
Proof.
  destruct l as [|x l]; [easy|]. intros _. simpl.
  destruct (fold_max_spec l x) as (Hin & Hle & Hall).
  eexists. split; [reflexivity|]. split.
  - destruct Hin as [->|Hin]; [now left | now right].
  - intros y [<-|Hy]; auto.
Qed.

(** ** The three branches of [Motor.__init__] *)

Section MotorInit.

Variable dry : Q.
Variable tc : Dict.t Q.

Let I := np_trapz (Dict.values tc) (Dict.keys tc).

Lemma proportional_spec F t0 rest :
  Dict.keys tc = t0 :: rest -> t0 == 0 -> distinct (Dict.keys tc) ->
  exists curve,
    Motor.proportional tc I F = Ok curve /\
    Dict.keys curve = 0 :: rest /\
    Dict.get curve t0 = Some (Fin F) /\
    chain tc I F curve t0 rest.
Proof.
  intros Hk H0 Hd. unfold Motor.proportional. rewrite Hk. rewrite Hk in Hd.
  destruct Hd as [Hd1 Hd2].
  assert (Hseed : Dict.get [(0, Fin F)] t0 = Some (Fin F)).
  { simpl. destruct (Qeq_bool 0 t0) eqn:E; [reflexivity|].
    apply Qeq_bool_neq in E. elim E. now symmetry. }
  destruct (deplete_spec tc I F rest t0 [(0, Fin F)] (Fin F))
    as (curve & Hrun & Hkeys & Hext & Hchain); auto.
  - intros k Hin. simpl. destruct (Qeq_bool 0 k) eqn:E; [|reflexivity].
    apply Qeq_bool_eq in E. elim (Hd1 k Hin). now rewrite <- E, H0.
  - intros k Hin. apply In_keys_get. now rewrite Hk.
  - exists curve. auto.
Qed.

Lemma init_proportional fmc F t0 rest :
  no_curve fmc -> ~ F == 0 ->
  Dict.keys tc = t0 :: rest -> t0 == 0 -> distinct (Dict.keys tc) ->
  exists bt curve,
    Motor.init dry tc fmc (Some F) = Ok (Motor.mk dry tc I bt curve (Fin F)) /\
    py_max (Dict.keys tc) = Ok bt /\
    Dict.keys curve = 0 :: rest /\
    Dict.get curve t0 = Some (Fin F) /\
    chain tc I F curve t0 rest.
Proof.
  intros Hc HF Hk H0 Hd.
  destruct (py_max_spec (Dict.keys tc)) as (bt & Hbt & _); [now rewrite Hk|].
  destruct (proportional_spec F t0 rest Hk H0 Hd)
    as (curve & Hrun & Hkeys & Hget & Hchain).
  exists bt, curve. split; [|auto].
  assert (HT : truthy F = true).
  { unfold truthy. destruct (Qeq_bool F 0) eqn:E; [|reflexivity].
    now apply Qeq_bool_eq in E. }
  unfold Motor.init. rewrite Hbt. simpl. fold I.
  destruct Hc as [->| ->]; rewrite HT, Hrun; reflexivity.
Qed.

(** What every successful construction stores, whatever the branch. *)
Lemma init_inv fmc fm m :
  Motor.init dry tc fmc fm = Ok m ->
  exists bt,
    py_max (Dict.keys tc) = Ok bt /\
    Motor.dry_mass m = dry /\ Motor.thrust_curve m = tc /\
    Motor.total_impulse m = I /\ Motor.burn_time m = bt.
Proof.
  unfold Motor.init. fold I.
  destruct (py_max (Dict.keys tc)) as [bt|e]; [|discriminate].
  simpl. intros H. exists bt. split; [reflexivity|].
  destruct fmc as [[|e c]|]; [| |];
    [destruct fm as [F|]; [destruct (truthy F)|]
    | |destruct fm as [F|]; [destruct (truthy F)|]];
    try (injection H as <-; now repeat split).
  all: match type of H with
       | bind ?r _ = _ => destruct r; simpl in H; [|discriminate]
       end;
       injection H as <-; now repeat split.
Qed.

End MotorInit.

(** ** From the loop to the sample times by index *)

Lemma np_truediv_finite x y : ~ y == 0 -> np_truediv x y = Fin (x / y).
Proof.
  intros N. unfold np_truediv. destruct (Qeq_bool y 0) eqn:E; [|reflexivity].
  now apply Qeq_bool_eq in E.
Qed.

Lemma np_truediv_zero x y : y == 0 -> np_truediv x y = NonFin.
Proof.
  intros E. unfold np_truediv. apply Qeq_bool_iff in E. now rewrite E.
Qed.

Lemma chain_finite tc I F curve :
  ~ I == 0 ->
  forall rest prev p,
    Dict.get curve prev = Some (Fin p) ->
    chain tc I F curve prev rest ->
    forall i, (S i < length (prev :: rest))%nat ->
      exists th_prev th_cur q,
        Dict.get tc (nth i (prev :: rest) 0) = Some th_prev /\
        Dict.get tc (nth (S i) (prev :: rest) 0) = Some th_cur /\
        Dict.get curve (nth i (prev :: rest) 0) = Some (Fin q) /\
        Dict.get curve (nth (S i) (prev :: rest) 0) =
          Some (Fin (q - (th_cur + th_prev) / 2
                         * (nth (S i) (prev :: rest) 0 - nth i (prev :: rest) 0)
                         / I * F)).
Proof.
  intros NI. induction rest as [|cur rest IH]; intros prev p Hp Hc i Hi.
  - simpl in Hi. lia.
  - destruct Hc as [(mp & thc & thp & H1 & H2 & H3 & H4) Hc].
    rewrite Hp in H1. injection H1 as <-.
    rewrite (np_truediv_finite _ _ NI) in H4. simpl in H4.
    destruct i as [|i].
    + exists thp, thc, p. simpl. auto.
    + apply (IH cur _ H4 Hc i). simpl in *. lia.
Qed.

Lemma chain_nonfinite tc I F curve :
  I == 0 ->
  forall rest prev,
    chain tc I F curve prev rest ->
    forall k, In k rest -> Dict.get curve k = Some NonFin.
Proof.
  intros ZI. induction rest as [|cur rest IH]; intros prev Hc k Hin; [easy|].
  destruct Hc as [(mp & thc & thp & H1 & H2 & H3 & H4) Hc].
  rewrite (np_truediv_zero _ _ ZI) in H4. simpl in H4.
  assert (Hnf : num_sub mp NonFin = NonFin) by now destruct mp.
  rewrite Hnf in H4.
  destruct Hin as [<-|Hin]; [exact H4 | now apply (IH cur)].
Qed.

Lemma increasing_nth l :
  increasing l = true ->
  forall i, (S i < length l)%nat -> nth i l 0 < nth (S i) l 0.
Proof.
  induction l as [|x l IH]; intros H i Hi; [simpl in Hi; lia|].
  destruct i as [|i].
  - destruct l as [|y l]; [simpl in Hi; lia|].
    simpl in H. apply andb_true_iff in H as [H _]. now apply Qltb_lt.
  - apply IH; [now apply increasing_tail in H | simpl in Hi; lia].
Qed.

(** ** Trapezoidal integration *)

Lemma np_trapz_trapezoid_sum (tc : Dict.t Q) :
  np_trapz (Dict.values tc) (Dict.keys tc) == trapezoid_sum tc.
Proof.
  induction tc as [|[t0 y0] tc IH]; [reflexivity|].
  destruct tc as [|[t1 y1] tc]; [reflexivity|].
  change (np_trapz (Dict.values ((t0, y0) :: (t1, y1) :: tc))
                   (Dict.keys ((t0, y0) :: (t1, y1) :: tc)))
    with ((t1 - t0) * (y1 + y0) / 2
          + np_trapz (Dict.values ((t1, y1) :: tc))
                     (Dict.keys ((t1, y1) :: tc))).
  change (trapezoid_sum ((t0, y0) :: (t1, y1) :: tc))
    with ((y1 + y0) / 2 * (t1 - t0) + trapezoid_sum ((t1, y1) :: tc)).
  rewrite IH. field.
Qed.

Lemma trapezoid_sum_nonneg (tc : Dict.t Q) :
  increasing (Dict.keys tc) = true -> nonneg (Dict.values tc) = true ->
  0 <= trapezoid_sum tc.
Proof.
  induction tc as [|[t0 y0] tc IH]; intros Hi Hn; [apply Qle_refl|].
  destruct tc as [|[t1 y1] tc]; [apply Qle_refl|].
  change (trapezoid_sum ((t0, y0) :: (t1, y1) :: tc))
    with ((y1 + y0) / 2 * (t1 - t0) + trapezoid_sum ((t1, y1) :: tc)).
  assert (Ht : t0 < t1).
  { simpl in Hi. apply andb_true_iff in Hi as [Hi _]. now apply Qltb_lt. }
  apply increasing_tail in Hi.
  unfold nonneg in Hn. simpl in Hn.
  apply andb_true_iff in Hn as [H0 Hn]. apply Qle_bool_iff in H0.
  pose proof Hn as Hn'. apply andb_true_iff in Hn' as [H1 _].
  apply Qle_bool_iff in H1.
  specialize (IH Hi Hn).
  assert (0 <= (y1 + y0) / 2 * (t1 - t0)).
  { apply Qmult_le_0_compat; [|lra].
    apply Qle_shift_div_l; [reflexivity | lra]. }
  lra.
Qed.

Lemma nonneg_get (tc : Dict.t Q) k v :
  nonneg (Dict.values tc) = true -> Dict.get tc k = Some v -> 0 <= v.
Proof.
  intros Hn Hg. destruct (get_Some_In _ _ _ Hg) as (k' & Hin & _).
  unfold nonneg in Hn. rewrite forallb_forall in Hn.
  apply Qle_bool_iff, Hn. unfold Dict.values.
  now apply (in_map snd) in Hin.
Qed.

(** * The claims *)

(** C1.  A Motor built without a fuel-mass curve and with a non-zero total
    fuel mass [F], over a thrust curve with strictly increasing time keys
    [t_0 < ... < t_n], [t_0 = 0] and a non-zero total impulse [I], has
    [curve[t_0] = F] and, for every [i] from 1 to [n],
    [curve[t_i] = curve[t_{i-1}]
       - (thrust[t_i] + thrust[t_{i-1}]) / 2 * (t_i - t_{i-1}) / I * F].
    In particular, over [{0: 0, 1: 1000, 2: 500, 3: 0}] with [F = 2] the total
    impulse is 1500 and the value at time 1 is
    [2 - (0 + 1000) / 2 * 1 / 1500 * 2]. *)
Theorem C1_fuel_mass_curve_recurrence :
  (forall dry tc fmc F t0 rest,
      no_curve fmc -> ~ F == 0 ->
      Dict.keys tc = t0 :: rest -> t0 == 0 ->
      increasing (Dict.keys tc) = true ->
      ~ np_trapz (Dict.values tc) (Dict.keys tc) == 0 ->
      exists m,
        Motor.init dry tc fmc (Some F) = Ok m /\
        Dict.get (Motor.fuel_mass_curve m) t0 = Some (Fin F) /\
        forall i, (1 <= i < length (Dict.keys tc))%nat ->
          let t_prev := nth (i - 1) (Dict.keys tc) 0 in
          let t_i := nth i (Dict.keys tc) 0 in
          exists th_prev th_i q,
            Dict.get tc t_prev = Some th_prev /\
            Dict.get tc t_i = Some th_i /\
            Dict.get (Motor.fuel_mass_curve m) t_prev = Some (Fin q) /\
            Dict.get (Motor.fuel_mass_curve m) t_i =
              Some (Fin (q - (th_i + th_prev) / 2 * (t_i - t_prev)
                             / Motor.total_impulse m * F))) /\
  (forall dry, exists m v,
      Motor.init dry example_thrust_curve None (Some 2) = Ok m /\
      Dict.get (Motor.fuel_mass_curve m) 1 = Some (Fin v) /\
      v == 2 - (0 + 1000) / 2 * 1 / 1500 * 2).
Proof.
  split.
  - intros dry tc fmc F t0 rest Hc HF Hk H0 Hinc HI.
    destruct (init_proportional dry tc fmc F t0 rest Hc HF Hk H0
                (increasing_distinct _ Hinc))
      as (bt & curve & Hinit & _ & _ & Hget & Hchain).
    eexists. split; [exact Hinit|]. simpl. split; [exact Hget|].
    intros i [Hi1 Hi2]. rewrite Hk in *.
    destruct i as [|i]; [lia|].
    replace (S i - 1)%nat with i by lia.
    apply (chain_finite tc _ F curve HI rest t0 F Hget Hchain i). lia.
  - intros dry. eexists. eexists. split; [reflexivity|].
    split; [reflexivity|]. vm_compute. reflexivity.
Qed.

Lemma C1_witness :
  (no_curve None /\ ~ 2 == 0 /\
   Dict.keys example_thrust_curve = 0 :: [1; 2; 3] /\ 0 == 0 /\
   increasing (Dict.keys example_thrust_curve) = true /\
   ~ np_trapz (Dict.values example_thrust_curve)
              (Dict.keys example_thrust_curve) == 0) /\
  exists m,
    Motor.init 1 example_thrust_curve None (Some 2) = Ok m /\
    Dict.get (Motor.fuel_mass_curve m) 0 = Some (Fin 2).
Proof.
  assert (H1 : no_curve None) by (left; reflexivity).
  assert (H2 : ~ 2 == 0) by (unfold Qeq; simpl; lia).
  assert (H3 : Dict.keys example_thrust_curve = 0 :: [1; 2; 3])
    by reflexivity.
  assert (H4 : 0 == 0) by reflexivity.
  assert (H5 : increasing (Dict.keys example_thrust_curve) = true)
    by reflexivity.
  assert (H6 : ~ np_trapz (Dict.values example_thrust_curve)
                          (Dict.keys example_thrust_curve) == 0)
    by (unfold Qeq; simpl; lia).
  split; [repeat split; assumption|].
  destruct (proj1 C1_fuel_mass_curve_recurrence 1 example_thrust_curve None 2
              0 [1; 2; 3] H1 H2 H3 H4 H5 H6) as (m & Hm & Hg & _).
  exists m. split; assumption.
Defined.

(** C1, as first stated: over [{0: 0, 1: 1000, 2: 500, 3: 0}] with [F = 2]
    the value at time 1 would be [2 - (0 + 1000) / 2 * 1 / 1750 * 2].  The
    constructor stores [4/3] there, which is not that number ([10/7]): the
    total impulse of this curve is 1500, not 1750. *)
Lemma C1_counterexample :
  exists m v,
    Motor.init 1 example_thrust_curve None (Some 2) = Ok m /\
    Motor.total_impulse m == 1500 /\
    Dict.get (Motor.fuel_mass_curve m) 1 = Some (Fin v) /\
    v == 4 # 3 /\
    ~ v == 2 - (0 + 1000) / 2 * 1 / 1750 * 2.
Proof.
  eexists. eexists. split; [reflexivity|]. simpl.
  split; [vm_compute; reflexivity|].
  split; [reflexivity|].
  split; [vm_compute; reflexivity | vm_compute; discriminate].
Qed.

(** C2.  The total impulse of every constructed Motor is the trapezoidal sum
    of its thrust samples, over consecutive samples
    [(thrust[t_i] + thrust[t_{i-1}]) / 2 * (t_i - t_{i-1})], and its burn
    time is the greatest time key of the thrust curve; a thrust curve with at
    least two strictly increasing time keys can be constructed over; and
    [{0: 0, 1: 1000, 2: 500, 3: 0}] yields total impulse 1500 and burn time
    3. *)
Theorem C2_total_impulse_burn_time :
  (forall dry tc fmc fm m,
      (2 <= length tc)%nat -> increasing (Dict.keys tc) = true ->
      Motor.init dry tc fmc fm = Ok m ->
      Motor.total_impulse m == trapezoid_sum tc /\
      In (Motor.burn_time m) (Dict.keys tc) /\
      (forall t, In t (Dict.keys tc) -> t <= Motor.burn_time m)) /\
  (forall dry tc,
      (2 <= length tc)%nat -> increasing (Dict.keys tc) = true ->
      exists m, Motor.init dry tc None None = Ok m) /\
  (forall dry, exists m,
      Motor.init dry example_thrust_curve None (Some 2) = Ok m /\
      Motor.total_impulse m == 1500 /\ Motor.burn_time m = 3).
Proof.
  split; [|split].
  - intros dry tc fmc fm m _ _ Hinit.
    destruct (init_inv _ _ _ _ _ Hinit) as (bt & Hbt & _ & _ & -> & ->).
    split; [apply np_trapz_trapezoid_sum|].
    destruct (py_max_spec (Dict.keys tc)) as (bt' & Hbt' & Hin & Hmax).
    { intros E. rewrite E in Hbt. discriminate. }
    rewrite Hbt in Hbt'. injection Hbt' as <-. now split.
  - intros dry tc Hlen _.
    destruct (py_max_spec (Dict.keys tc)) as (bt & Hbt & _).
    { destruct tc; [simpl in Hlen; lia | discriminate]. }
    unfold Motor.init. rewrite Hbt. simpl. eexists. reflexivity.
  - intros dry. eexists. split; [reflexivity|]. simpl.
    split; [vm_compute; reflexivity | reflexivity].
Qed.

Lemma C2_witness :
  ((2 <= length example_thrust_curve)%nat /\
   increasing (Dict.keys example_thrust_curve) = true) /\
  exists m,
    Motor.init 1 example_thrust_curve None None = Ok m /\
    Motor.total_impulse m == trapezoid_sum example_thrust_curve /\
    Motor.burn_time m = 3.
Proof.
  assert (H1 : (2 <= length example_thrust_curve)%nat) by (simpl; lia).
  assert (H2 : increasing (Dict.keys example_thrust_curve) = true)
    by reflexivity.
  split; [split; assumption|].
  eexists. split; [reflexivity|]. split; [|reflexivity].
  apply (proj1 C2_total_impulse_burn_time 1 example_thrust_curve None None
           _ H1 H2 eq_refl).
Defined.

(** C2, as first stated: [{0: 0, 1: 1000, 2: 500, 3: 0}] would yield total
    impulse 1750.  Its three trapezoids are 500, 750 and 250: the
    constructor stores 1500. *)
Lemma C2_counterexample :
  exists m,
    Motor.init 1 example_thrust_curve None (Some 2) = Ok m /\
    Motor.total_impulse m == 500 + 750 + 250 /\
    ~ Motor.total_impulse m == 1750.
Proof.
  eexists. split; [reflexivity|]. simpl.
  split; [vm_compute; reflexivity | vm_compute; discriminate].
Qed.

(** C3, as first stated: over a thrust curve whose trapezoidal integral is
    zero, a proportional derivation would fail with a validation error.  Over
    [{0: 0, 1: 0, 2: 0}] with fuel mass 2 the constructor raises nothing and
    returns a Motor whose fuel masses at times 1 and 2 are not finite. *)
Lemma C3_counterexample :
  np_trapz (Dict.values zero_thrust_curve) (Dict.keys zero_thrust_curve) == 0 /\
  truthy 2 = true /\
  (exists I,
      Motor.init 1 zero_thrust_curve None (Some 2)
      = Ok (Motor.mk 1 zero_thrust_curve I 2
              [(0, Fin 2); (1, NonFin); (2, NonFin)] (Fin 2))) /\
  ~ exists e, Motor.init 1 zero_thrust_curve None (Some 2) = Raise e.
Proof.
  split; [vm_compute; reflexivity|]. split; [reflexivity|].
  split; [eexists; reflexivity|]. intros [e He]. discriminate He.
Qed.

(** C3, amended.  Over a thrust curve with first key 0 and strictly
    increasing keys whose trapezoidal integral is zero, a proportional
    derivation (no fuel-mass curve, non-zero fuel mass [F]) is not
    validated and does not fail: the constructor returns a Motor whose
    fuel-mass curve holds [F] at time 0 and a non-finite value, the result
    of the division by the zero total impulse, at every later sample
    time. *)
Theorem C3_zero_impulse_not_guarded :
  forall dry tc fmc F t0 rest,
    no_curve fmc -> ~ F == 0 ->
    Dict.keys tc = t0 :: rest -> t0 == 0 ->
    increasing (Dict.keys tc) = true ->
    np_trapz (Dict.values tc) (Dict.keys tc) == 0 ->
    exists m,
      Motor.init dry tc fmc (Some F) = Ok m /\
      Dict.get (Motor.fuel_mass_curve m) t0 = Some (Fin F) /\
      forall t, In t rest ->
        Dict.get (Motor.fuel_mass_curve m) t = Some NonFin.
Proof.
  intros dry tc fmc F t0 rest Hc HF Hk H0 Hinc HI.
  destruct (init_proportional dry tc fmc F t0 rest Hc HF Hk H0
              (increasing_distinct _ Hinc))
    as (bt & curve & Hinit & _ & _ & Hget & Hchain).
  eexists. split; [exact Hinit|]. simpl. split; [exact Hget|].
  exact (chain_nonfinite tc _ F curve HI rest t0 Hchain).
Qed.

Lemma C3_witness :
  (no_curve None /\ ~ 2 == 0 /\
   Dict.keys zero_thrust_curve = 0 :: [1; 2] /\ 0 == 0 /\
   increasing (Dict.keys zero_thrust_curve) = true /\
   np_trapz (Dict.values zero_thrust_curve) (Dict.keys zero_thrust_curve)
   == 0) /\
  exists m,
    Motor.init 1 zero_thrust_curve None (Some 2) = Ok m /\
    Dict.get (Motor.fuel_mass_curve m) 2 = Some NonFin.
Proof.
  assert (H1 : no_curve None) by (left; reflexivity).
  assert (H2 : ~ 2 == 0) by (unfold Qeq; simpl; lia).
  assert (H3 : Dict.keys zero_thrust_curve = 0 :: [1; 2]) by reflexivity.
  assert (H4 : 0 == 0) by reflexivity.
  assert (H5 : increasing (Dict.keys zero_thrust_curve) = true) by reflexivity.
  assert (H6 : np_trapz (Dict.values zero_thrust_curve)
                        (Dict.keys zero_thrust_curve) == 0)
    by (vm_compute; reflexivity).
  split; [repeat split; assumption|].
  destruct (C3_zero_impulse_not_guarded 1 zero_thrust_curve None 2 0 [1; 2]
              H1 H2 H3 H4 H5 H6) as (m & Hm & _ & Hnf).
  exists m. split; [exact Hm|]. apply Hnf. simpl. auto.
Defined.

(** C4, as first stated: in every branch the fuel-mass curve would be
    defined at exactly the time keys of the thrust curve.  With no fuel
    information, [{0: 0, 1: 1000, 2: 500, 3: 0}] gives the two-point curve
    [{0: 0, 3: 0}], which has no entry at time 1. *)
Lemma C4_counterexample :
  exists m,
    Motor.init 1 example_thrust_curve None None = Ok m /\
    Motor.fuel_mass_curve m = [(0, Fin 0); (3, Fin 0)] /\
    Dict.mem example_thrust_curve 1 = true /\
    Dict.mem (Motor.fuel_mass_curve m) 1 = false.
Proof.
  eexists. split; [reflexivity|]. simpl. repeat split.
Qed.

(** C4, amended.  The fuel-mass curve is defined at exactly the time keys of
    the thrust curve in the proportional branch (no fuel-mass curve, non-zero
    fuel mass) when the thrust curve's first key is 0; with a supplied
    non-empty fuel-mass curve it is that curve, with that curve's own keys;
    with no fuel information its keys are exactly 0 and the burn time. *)
Theorem C4_fuel_mass_curve_keys :
  (forall dry tc fmc F t0 rest,
      no_curve fmc -> ~ F == 0 ->
      Dict.keys tc = t0 :: rest -> t0 == 0 -> distinct (Dict.keys tc) ->
      exists m,
        Motor.init dry tc fmc (Some F) = Ok m /\
        forall k, Dict.mem (Motor.fuel_mass_curve m) k = Dict.mem tc k) /\
  (forall dry tc c fm m,
      c <> [] -> Motor.init dry tc (Some c) fm = Ok m ->
      Motor.fuel_mass_curve m = c) /\
  (forall dry tc fmc fm m,
      no_curve fmc -> truthy_opt fm = false ->
      Motor.init dry tc fmc fm = Ok m ->
      forall k, Dict.mem (Motor.fuel_mass_curve m) k = true
                <-> (k == 0 \/ k == Motor.burn_time m)).
Proof.
  split; [|split].
  - intros dry tc fmc F t0 rest Hc HF Hk H0 Hd.
    destruct (init_proportional dry tc fmc F t0 rest Hc HF Hk H0 Hd)
      as (bt & curve & Hinit & _ & Hkeys & _ & _).
    eexists. split; [exact Hinit|]. simpl. intros k.
    apply eq_true_iff_eq. rewrite !mem_keys, Hkeys, Hk. split.
    + intros (k' & [<-|Hin] & E).
      * exists t0. split; [now left | now rewrite H0].
      * exists k'. split; [now right | exact E].
    + intros (k' & [<-|Hin] & E).
      * exists 0. split; [now left | now rewrite <- H0].
      * exists k'. split; [now right | exact E].
  - intros dry tc c fm m Hne Hinit. unfold Motor.init in Hinit.
    destruct (py_max (Dict.keys tc)) as [bt|]; [|discriminate].
    simpl in Hinit. destruct c as [|e c]; [easy|].
    destruct (Dict.getitem (e :: c) 0); [|discriminate].
    simpl in Hinit. now injection Hinit as <-.
  - intros dry tc fmc fm m Hc Hfm Hinit. unfold Motor.init in Hinit.
    destruct (py_max (Dict.keys tc)) as [bt|]; [|discriminate].
    simpl in Hinit.
    assert (Hm : m = Motor.mk dry tc
                   (np_trapz (Dict.values tc) (Dict.keys tc)) bt
                   (Dict.setitem [(0, Fin 0)] bt (Fin 0)) (Fin 0)).
    { destruct Hc as [-> | ->]; destruct fm as [F|]; simpl in Hfm;
        try rewrite Hfm in Hinit; now injection Hinit as <-. }
    subst m. intros k. unfold Dict.mem. simpl.
    destruct (Qeq_bool 0 bt) eqn:Eb; simpl;
      destruct (Qeq_bool 0 k) eqn:E0;
      try (apply Qeq_bool_eq in E0; split; [left; now symmetry | reflexivity]).
    + apply Qeq_bool_eq in Eb. apply Qeq_bool_neq in E0.
      split; [discriminate|]. intros [E|E]; elim E0.
      * now symmetry.
      * now rewrite Eb.
    + apply Qeq_bool_neq in E0. destruct (Qeq_bool bt k) eqn:Ek.
      * apply Qeq_bool_eq in Ek. split; [right; now symmetry | reflexivity].
      * apply Qeq_bool_neq in Ek. split; [discriminate|].
        intros [E|E]; [elim E0 | elim Ek]; now symmetry.
Qed.

Lemma C4_witness :
  (no_curve None /\ ~ 2 == 0 /\
   Dict.keys example_thrust_curve = 0 :: [1; 2; 3] /\ 0 == 0 /\
   distinct (Dict.keys example_thrust_curve)) /\
  exists m,
    Motor.init 1 example_thrust_curve None (Some 2) = Ok m /\
    Dict.mem (Motor.fuel_mass_curve m) 2 = Dict.mem example_thrust_curve 2.
Proof.
  assert (H1 : no_curve None) by (left; reflexivity).
  assert (H2 : ~ 2 == 0) by (unfold Qeq; simpl; lia).
  assert (H3 : Dict.keys example_thrust_curve = 0 :: [1; 2; 3])
    by reflexivity.
  assert (H4 : 0 == 0) by reflexivity.
  assert (H5 : distinct (Dict.keys example_thrust_curve)).
  { apply increasing_distinct. reflexivity. }
  split; [exact (conj H1 (conj H2 (conj H3 (conj H4 H5))))|].
  destruct (proj1 C4_fuel_mass_curve_keys 1 example_thrust_curve None 2
              0 [1; 2; 3] H1 H2 H3 H4 H5) as (m & Hm & Hk).
  exists m. split; [exact Hm | apply Hk].
Defined.

(** C5, as first stated: for every non-zero fuel mass [F] the derived curve
    would be non-increasing.  Over [{0: 0, 1: 1000}] with [F = -2] the curve
    is [{0: -2, 1: 0}], which increases. *)
Lemma C5_counterexample :
  (~ -2 == 0 /\
   increasing (Dict.keys ramp_thrust_curve) = true /\
   nonneg (Dict.values ramp_thrust_curve) = true /\
   ~ np_trapz (Dict.values ramp_thrust_curve) (Dict.keys ramp_thrust_curve)
     == 0) /\
  exists m p c,
    Motor.init 1 ramp_thrust_curve None (Some (-2)) = Ok m /\
    Dict.get (Motor.fuel_mass_curve m) 0 = Some (Fin p) /\
    Dict.get (Motor.fuel_mass_curve m) 1 = Some (Fin c) /\
    p == -2 /\ c == 0 /\ ~ c <= p.
Proof.
  split.
  - split; [vm_compute; discriminate|]. split; [reflexivity|].
    split; [reflexivity | vm_compute; discriminate].
  - eexists. eexists. eexists. split; [reflexivity|]. simpl.
    split; [reflexivity|]. split; [reflexivity|].
    split; [reflexivity|]. split; [vm_compute; reflexivity|].
    vm_compute. intros H. now apply H.
Qed.

(** C5, amended.  A Motor built without a fuel-mass curve and with a
    positive total fuel mass [F], over a thrust curve with first key 0,
    strictly increasing keys, every thrust value at least 0 and a non-zero
    total impulse, has a fuel-mass curve with value [F] at time 0 that is
    non-increasing along the sample times:
    [curve[t_i] <= curve[t_{i-1}]] for every [i >= 1]. *)
Theorem C5_fuel_mass_curve_monotone :
  forall dry tc fmc F t0 rest,
    no_curve fmc -> 0 < F ->
    Dict.keys tc = t0 :: rest -> t0 == 0 ->
    increasing (Dict.keys tc) = true ->
    nonneg (Dict.values tc) = true ->
    ~ np_trapz (Dict.values tc) (Dict.keys tc) == 0 ->
    exists m,
      Motor.init dry tc fmc (Some F) = Ok m /\
      Dict.get (Motor.fuel_mass_curve m) t0 = Some (Fin F) /\
      forall i, (1 <= i < length (Dict.keys tc))%nat ->
        exists p c,
          Dict.get (Motor.fuel_mass_curve m) (nth (i - 1) (Dict.keys tc) 0)
          = Some (Fin p) /\
          Dict.get (Motor.fuel_mass_curve m) (nth i (Dict.keys tc) 0)
          = Some (Fin c) /\
          c <= p.
Proof.
  intros dry tc fmc F t0 rest Hc HF Hk H0 Hinc Hnn HI.
  assert (HF0 : ~ F == 0).
  { intros E. rewrite E in HF. now apply Qlt_irrefl in HF. }
  destruct (init_proportional dry tc fmc F t0 rest Hc HF0 Hk H0
              (increasing_distinct _ Hinc))
    as (bt & curve & Hinit & _ & _ & Hget & Hchain).
  eexists. split; [exact Hinit|]. simpl. split; [exact Hget|].
  intros i [Hi1 Hi2]. destruct i as [|i]; [lia|].
  replace (S i - 1)%nat with i by lia.
  pose proof (increasing_nth _ Hinc i Hi2) as Hlt.
  rewrite Hk in Hi2, Hlt |- *.
  destruct (chain_finite tc _ F curve HI rest t0 F Hget Hchain i Hi2)
    as (thp & thc & q & Hthp & Hthc & Hq & Hc').
  exists q. eexists. split; [exact Hq|]. split; [exact Hc'|].
  set (I := np_trapz (Dict.values tc) (Dict.keys tc)) in *.
  assert (HIpos : 0 < I).
  { assert (0 <= I).
    { unfold I. rewrite np_trapz_trapezoid_sum.
      apply trapezoid_sum_nonneg; assumption. }
    apply Qle_lt_or_eq in H as [H|H]; [exact H|]. elim HI. now symmetry. }
  pose proof (nonneg_get _ _ _ Hnn Hthp) as Hp.
  pose proof (nonneg_get _ _ _ Hnn Hthc) as Hcur.
  set (a := nth i (t0 :: rest) 0) in *.
  set (b := nth (S i) (t0 :: rest) 0) in *.
  assert (Hx : 0 <= (thc + thp) / 2 * (b - a)).
  { apply Qmult_le_0_compat; [|lra].
    apply Qle_shift_div_l; [reflexivity | lra]. }
  assert (Hy : 0 <= (thc + thp) / 2 * (b - a) / I).
  { apply Qle_shift_div_l; [exact HIpos | lra]. }
  assert (Hz : 0 <= (thc + thp) / 2 * (b - a) / I * F).
  { apply Qmult_le_0_compat; [exact Hy | now apply Qlt_le_weak]. }
  lra.
Qed.

Lemma C5_witness :
  (no_curve None /\ 0 < 2 /\
   Dict.keys example_thrust_curve = 0 :: [1; 2; 3] /\ 0 == 0 /\
   increasing (Dict.keys example_thrust_curve) = true /\
   nonneg (Dict.values example_thrust_curve) = true /\
   ~ np_trapz (Dict.values example_thrust_curve)
              (Dict.keys example_thrust_curve) == 0) /\
  exists m p c,
    Motor.init 1 example_thrust_curve None (Some 2) = Ok m /\
    Dict.get (Motor.fuel_mass_curve m) 2 = Some (Fin p) /\
    Dict.get (Motor.fuel_mass_curve m) 3 = Some (Fin c) /\
    c <= p.
Proof.
  assert (H1 : no_curve None) by (left; reflexivity).
  assert (H2 : 0 < 2) by reflexivity.
  assert (H3 : Dict.keys example_thrust_curve = 0 :: [1; 2; 3])
    by reflexivity.
  assert (H4 : 0 == 0) by reflexivity.
  assert (H5 : increasing (Dict.keys example_thrust_curve) = true)
    by reflexivity.
  assert (H6 : nonneg (Dict.values example_thrust_curve) = true)
    by reflexivity.
  assert (H7 : ~ np_trapz (Dict.values example_thrust_curve)
                          (Dict.keys example_thrust_curve) == 0)
    by (vm_compute; discriminate).
  split;
    [exact (conj H1 (conj H2 (conj H3 (conj H4 (conj H5 (conj H6 H7))))))|].
  destruct (C5_fuel_mass_curve_monotone 1 example_thrust_curve None 2
              0 [1; 2; 3] H1 H2 H3 H4 H5 H6 H7) as (m & Hm & _ & Hmono).
  destruct (Hmono 3%nat) as (p & c & Hp & Hc & Hle); [simpl; lia|].
  exists m, p, c. repeat split; assumption.
Defined.

(** C6.  A Motor built with a non-empty fuel-mass curve that has the time
    key 0 stores that curve unchanged, whatever its keys, and its fuel mass
    is the curve's value at time 0, whether or not a total fuel mass was
    passed as well; the construction succeeds over every non-empty thrust
    curve. *)
Theorem C6_supplied_curve_passed_through :
  forall dry tc c fm v,
    c <> [] -> Dict.get c 0 = Some v ->
    (tc <> [] -> exists m, Motor.init dry tc (Some c) fm = Ok m) /\
    (forall m,
        Motor.init dry tc (Some c) fm = Ok m ->
        Motor.fuel_mass_curve m = c /\ Motor.fuel_mass m = v).
Proof.
  intros dry tc c fm v Hne Hv.
  destruct c as [|e c]; [easy|].
  unfold Motor.init. rewrite (getitem_Some _ _ _ Hv). split.
  - intros Htc. destruct (py_max_spec (Dict.keys tc)) as (bt & Hbt & _).
    { destruct tc; [easy | discriminate]. }
    rewrite Hbt. simpl. eexists. reflexivity.
  - intros m. destruct (py_max (Dict.keys tc)); simpl; [|discriminate].
    intros [= <-]. now split.
Qed.

Lemma C6_witness :
  ([(0, Fin 3); (7, Fin 1)] <> [] /\
   Dict.get [(0, Fin 3); (7, Fin 1)] 0 = Some (Fin 3)) /\
  exists m,
    Motor.init 1 example_thrust_curve (Some [(0, Fin 3); (7, Fin 1)]) (Some 5)
    = Ok m /\
    Motor.fuel_mass_curve m = [(0, Fin 3); (7, Fin 1)] /\
    Motor.fuel_mass m = Fin 3.
Proof.
  assert (H1 : [(0, Fin 3); (7, Fin 1)] <> []) by discriminate.
  assert (H2 : Dict.get [(0, Fin 3); (7, Fin 1)] 0 = Some (Fin 3))
    by reflexivity.
  split; [split; assumption|].
  eexists. split; [reflexivity|].
  exact (proj2 (C6_supplied_curve_passed_through 1 example_thrust_curve
                  [(0, Fin 3); (7, Fin 1)] (Some 5) (Fin 3) H1 H2)
           _ eq_refl).
Defined.

(** C7.  [Cd_A_rocket] of every Rocket is one function of the Mach number:
    [Cd_rocket_at_Ma(Ma) * A_rocket] when [Cd_rocket_at_Ma] is callable, and
    [c * A_rocket] whatever the Mach number when it is the constant [c]; in
    both cases it is a function from Mach number to drag area.  This holds
    of the stored [Cd_rocket_at_Ma] and [A_rocket] of the Rocket, whether the
    coefficient was passed or left at its default, the constant 0.45. *)
Theorem C7_drag_area_function :
  forall rocket_mass motor A_rocket h,
    (forall f Ma,
        Rocket.Cd_A_rocket
          (Rocket.init rocket_mass motor A_rocket (Some (Callable f)) h) Ma
        = f Ma * A_rocket) /\
    (forall c Ma,
        Rocket.Cd_A_rocket
          (Rocket.init rocket_mass motor A_rocket (Some (Constant c)) h) Ma
        = c * A_rocket) /\
    (forall c Ma Ma',
        Rocket.Cd_A_rocket
          (Rocket.init rocket_mass motor A_rocket (Some (Constant c)) h) Ma
        = Rocket.Cd_A_rocket
            (Rocket.init rocket_mass motor A_rocket (Some (Constant c)) h)
            Ma') /\
    (forall Cd_arg,
        let r := Rocket.init rocket_mass motor A_rocket Cd_arg h in
        Rocket.A_rocket r = A_rocket /\
        Rocket.Cd_rocket_at_Ma r
        = match Cd_arg with
          | Some cd => cd
          | None => Constant (45 # 100)
          end /\
        match Rocket.Cd_rocket_at_Ma r with
        | Callable f =>
            forall Ma, Rocket.Cd_A_rocket r Ma = f Ma * Rocket.A_rocket r
        | Constant c =>
            forall Ma,
              Rocket.Cd_A_rocket r Ma = c * Rocket.A_rocket r /\
              forall Ma', Rocket.Cd_A_rocket r Ma' = Rocket.Cd_A_rocket r Ma
        end).
Proof.
  intros rocket_mass motor A_rocket h.
  split; [reflexivity|]. split; [reflexivity|]. split; [reflexivity|].
  intros Cd_arg r. split; [reflexivity|]. split; [reflexivity|].
  subst r. destruct Cd_arg as [[c|f]|]; simpl.
  - intros Ma. split; reflexivity.
  - intros Ma. reflexivity.
  - intros Ma. split; reflexivity.
Qed.

(** C8.  [local_gravity] of every LaunchConditions is resolved by
    precedence: a supplied non-zero [local_gravity] is used as it is;
    otherwise, with a non-zero [latitude], it is
    [get_local_gravity(latitude, altitude)], the altitude being 0 when left
    out; otherwise it is the global constant [F_gravity].  In particular a
    latitude of exactly 0 with no [local_gravity] gives [F_gravity]. *)
Theorem C8_gravity_precedence :
  forall T_lapse_rate F_gravity get_local_gravity
         pressure temp L elevation direction lapse wind_speed heading,
    let make lg lat alt :=
      LaunchConditions.init T_lapse_rate F_gravity get_local_gravity
        pressure temp L elevation direction lg lapse lat alt
        wind_speed heading in
    (forall g lat alt,
        ~ g == 0 ->
        LaunchConditions.local_gravity (make (Some g) lat alt) = g) /\
    (forall lg lat alt,
        truthy_opt lg = false -> ~ lat == 0 ->
        LaunchConditions.local_gravity (make lg (Some lat) (Some alt))
        = get_local_gravity lat alt /\
        LaunchConditions.local_gravity (make lg (Some lat) None)
        = get_local_gravity lat 0) /\
    (forall lg lat alt,
        truthy_opt lg = false -> truthy_opt lat = false ->
        LaunchConditions.local_gravity (make lg lat alt) = F_gravity) /\
    (forall alt,
        LaunchConditions.local_gravity (make None (Some 0) alt) = F_gravity).
Proof.
  intros T_lapse_rate F_gravity get_local_gravity
    pressure temp L elevation direction lapse wind_speed heading make.
  assert (Ht : forall x, ~ x == 0 -> truthy x = true).
  { intros x N. unfold truthy. destruct (Qeq_bool x 0) eqn:E; [|reflexivity].
    now apply Qeq_bool_eq in E. }
  unfold make, LaunchConditions.init, LaunchConditions.resolve_gravity. simpl.
  split; [|split; [|split]].
  - intros g lat alt N. now rewrite (Ht g N).
  - intros lg lat alt Hlg N. rewrite (Ht lat N).
    destruct lg as [g|]; simpl in Hlg; [rewrite Hlg|]; now split.
  - intros lg lat alt Hlg Hlat.
    destruct lg as [g|], lat as [l|]; simpl in Hlg, Hlat;
      try rewrite Hlg; try rewrite Hlat; reflexivity.
  - reflexivity.
Qed.

Lemma C8_witness :
  (~ (979 # 100) == 0 /\ truthy_opt (Some 0) = false /\ ~ 45 == 0 /\
   truthy_opt None = false) /\
  LaunchConditions.local_gravity
    (LaunchConditions.init sample_T_lapse_rate sample_F_gravity
       sample_gravity_model 86400 25 5 None None (Some (979 # 100)) None
       (Some 45) (Some 1400) None None)
  = 979 # 100 /\
  LaunchConditions.local_gravity
    (LaunchConditions.init sample_T_lapse_rate sample_F_gravity
       sample_gravity_model 86400 25 5 None None (Some 0) None
       (Some 45) (Some 1400) None None)
  = sample_gravity_model 45 1400 /\
  LaunchConditions.local_gravity
    (LaunchConditions.init sample_T_lapse_rate sample_F_gravity
       sample_gravity_model 86400 25 5 None None (Some 0) None
       None (Some 1400) None None)
  = sample_F_gravity.
Proof.
  assert (H1 : ~ (979 # 100) == 0) by (unfold Qeq; simpl; lia).
  assert (H2 : truthy_opt (Some 0) = false) by reflexivity.
  assert (H3 : ~ 45 == 0) by (unfold Qeq; simpl; lia).
  assert (H4 : truthy_opt None = false) by reflexivity.
  split; [exact (conj H1 (conj H2 (conj H3 H4)))|].
  destruct (C8_gravity_precedence sample_T_lapse_rate sample_F_gravity
              sample_gravity_model 86400 25 5 None None None None None)
    as (P1 & P2 & P3 & _).
  split; [exact (P1 (979 # 100) (Some 45) (Some 1400) H1)|].
  split; [exact (proj1 (P2 (Some 0) 45 1400 H2 H3))|].
  exact (P3 (Some 0) None (Some 1400) H2 H4).
Defined.

(** C9, as first stated: a supplied [max_retraction_rate] different from
    [max_deployment_rate] would be kept.  A supplied 0 is not: with a
    deployment rate of 30 the retraction rate becomes 30. *)
Lemma C9_counterexample :
  ~ 0 == 30 /\
  Airbrakes.max_retraction_rate
    (Airbrakes.init 3 (4 # 1000) 1 45 30 (Some 0)) = 30 /\
  ~ Airbrakes.max_retraction_rate
      (Airbrakes.init 3 (4 # 1000) 1 45 30 (Some 0)) == 0.
Proof.
  split; [vm_compute; discriminate|]. split; [reflexivity|].
  vm_compute. discriminate.
Qed.

(** C9, amended.  [max_retraction_rate] of every Airbrakes is
    [max_deployment_rate] when the argument is left out, the supplied value
    when a non-zero value is supplied, and [max_deployment_rate] again when
    the supplied value is 0. *)
Theorem C9_retraction_rate_default :
  forall num_flaps A_flap Cd_brakes angle rate,
    Airbrakes.max_retraction_rate
      (Airbrakes.init num_flaps A_flap Cd_brakes angle rate None) = rate /\
    (forall r, ~ r == 0 ->
       Airbrakes.max_retraction_rate
         (Airbrakes.init num_flaps A_flap Cd_brakes angle rate (Some r)) = r) /\
    (forall r, r == 0 ->
       Airbrakes.max_retraction_rate
         (Airbrakes.init num_flaps A_flap Cd_brakes angle rate (Some r))
       = rate).
Proof.
  intros num_flaps A_flap Cd_brakes angle rate. simpl. unfold truthy.
  split; [reflexivity|]. split; intros r Hr.
  - destruct (Qeq_bool r 0) eqn:E; [|reflexivity].
    now apply Qeq_bool_eq in E.
  - apply Qeq_bool_iff in Hr. now rewrite Hr.
Qed.

Lemma C9_witness :
  (~ 20 == 0 /\ 0 # 7 == 0) /\
  Airbrakes.max_retraction_rate
    (Airbrakes.init 3 (4 # 1000) 1 45 30 (Some 20)) = 20 /\
  Airbrakes.max_retraction_rate
    (Airbrakes.init 3 (4 # 1000) 1 45 30 (Some (0 # 7))) = 30.
Proof.
  assert (H1 : ~ 20 == 0) by (unfold Qeq; simpl; lia).
  assert (H2 : 0 # 7 == 0) by reflexivity.
  split; [split; assumption|].
  destruct (C9_retraction_rate_default 3 (4 # 1000) 1 45 30)
    as (_ & P1 & P2).
  split; [exact (P1 20 H1) | exact (P2 (0 # 7) H2)].
Defined.

(** C10, as first stated: in the proportional branch a thrust curve whose
    first key is not 0 would always make the construction fail.  Over the
    single sample [{5: 10}] the loop body never runs and the constructor
    returns a Motor with the curve [{0: 2}]. *)
Lemma C10_counterexample :
  (Dict.keys single_sample_curve = [5] /\ ~ 5 == 0 /\ truthy 2 = true) /\
  Motor.init 1 single_sample_curve None (Some 2)
  = Ok (Motor.mk 1 single_sample_curve 0 5 [(0, Fin 2)] (Fin 2)) /\
  ~ exists e, Motor.init 1 single_sample_curve None (Some 2) = Raise e.
Proof.
  split; [|split].
  - split; [reflexivity|]. split; [vm_compute; discriminate | reflexivity].
  - reflexivity.
  - intros [e He]. discriminate He.
Qed.

(** C10, amended.  In the proportional branch (no fuel-mass curve, non-zero
    fuel mass), over a thrust curve with at least two samples whose first
    time key [t_0] is not 0, the construction fails with [KeyError(t_0)]: the
    curve is seeded at key 0 only and the update for the second sample reads
    the key [t_0]; over a thrust curve whose first key is 0 it succeeds. *)
Theorem C10_first_key_must_be_zero :
  (forall dry tc fmc F t0 t1 rest,
      no_curve fmc -> ~ F == 0 ->
      Dict.keys tc = t0 :: t1 :: rest -> ~ t0 == 0 ->
      Motor.init dry tc fmc (Some F) = Raise (KeyError t0)) /\
  (forall dry tc fmc F t0 rest,
      no_curve fmc -> ~ F == 0 ->
      Dict.keys tc = t0 :: rest -> t0 == 0 -> distinct (Dict.keys tc) ->
      exists m, Motor.init dry tc fmc (Some F) = Ok m).
Proof.
  split.
  - intros dry tc fmc F t0 t1 rest Hc HF Hk H0.
    destruct (py_max_spec (Dict.keys tc)) as (bt & Hbt & _);
      [now rewrite Hk|].
    assert (HT : truthy F = true).
    { unfold truthy. destruct (Qeq_bool F 0) eqn:E; [|reflexivity].
      now apply Qeq_bool_eq in E. }
    assert (Hrun : forall I, Motor.proportional tc I F = Raise (KeyError t0)).
    { intros I. unfold Motor.proportional. rewrite Hk. simpl.
      unfold Dict.getitem at 1. simpl.
      destruct (Qeq_bool 0 t0) eqn:E; [|reflexivity].
      apply Qeq_bool_eq in E. elim H0. now symmetry. }
    unfold Motor.init. rewrite Hbt. simpl.
    destruct Hc as [-> | ->]; now rewrite HT, Hrun.
  - intros dry tc fmc F t0 rest Hc HF Hk H0 Hd.
    destruct (init_proportional dry tc fmc F t0 rest Hc HF Hk H0 Hd)
      as (bt & curve & Hinit & _).
    eexists. exact Hinit.
Qed.

Lemma C10_witness :
  (no_curve None /\ ~ 2 == 0 /\
   Dict.keys [(5, 10); (6, 1)] = 5 :: 6 :: [] /\ ~ 5 == 0) /\
  Motor.init 1 [(5, 10); (6, 1)] None (Some 2) = Raise (KeyError 5).
Proof.
  assert (H1 : no_curve None) by (left; reflexivity).
  assert (H2 : ~ 2 == 0) by (unfold Qeq; simpl; lia).
  assert (H3 : Dict.keys [(5, 10); (6, 1)] = 5 :: 6 :: []) by reflexivity.
  assert (H4 : ~ 5 == 0) by (unfold Qeq; simpl; lia).
  split; [exact (conj H1 (conj H2 (conj H3 H4)))|].
  exact (proj1 C10_first_key_must_be_zero 1 [(5, 10); (6, 1)] None 2 5 6 []
           H1 H2 H3 H4).
Defined.

(** * Further properties of the constructors *)

(** ** Samples by index *)






(** ** The proportional branch in closed form *)


(** ** Exceptions of [Motor.__init__] *)

Lemma deplete_raises_KeyError tc I F rest : forall prev curve e,
  Motor.deplete tc I F prev rest curve = Raise e -> exists k, e = KeyError k.
Proof.
  induction rest as [|cur rest IH]; intros prev curve e; simpl;
    [discriminate|].
  unfold Dict.getitem.
  destruct (Dict.get curve prev); simpl; [|intros [= <-]; eauto].
  destruct (Dict.get tc cur); simpl; [|intros [= <-]; eauto].
  destruct (Dict.get tc prev); simpl; [|intros [= <-]; eauto].
  apply IH.
Qed.


Lemma last_default (l : list Q) a b : l <> [] -> last l a = last l b.
Proof.
  induction l as [|x l IH]; [easy|]. intros _.
  destruct l as [|y l]; [reflexivity|].
  change (last (y :: l) a = last (y :: l) b). now apply IH.
Qed.

Lemma fold_max_increasing l : forall x,
  increasing (x :: l) = true ->
  fold_left (fun m y => if Qltb m y then y else m) l x = last l x.
Proof.
  induction l as [|y l IH]; intros x H; [reflexivity|].
  simpl in H. apply andb_true_iff in H as [Hxy Hl].
  simpl fold_left. rewrite Hxy, (IH y Hl).
  destruct l as [|z l]; [reflexivity|].
  change (last (z :: l) y = last (z :: l) x). now apply last_default.
Qed.

Lemma py_max_increasing l :
  increasing l = true -> l <> [] -> py_max l = Ok (last l 0).
Proof.
  destruct l as [|x l]; [easy|]. intros H _. simpl py_max.
  rewrite (fold_max_increasing l x H).
  destruct l as [|z l]; [reflexivity|].
  change (Ok (last (z :: l) x) = Ok (last (z :: l) 0)).
  f_equal. now apply last_default.
Qed.

(** X1.  [Motor.__init__] raises [ValueError] exactly when the thrust curve
    is empty, whatever the fuel arguments are: [max] of no keys is the only
    source of that exception. *)
Theorem X1_ValueError_iff_empty_thrust_curve :
  forall dry tc fmc fm,
    Motor.init dry tc fmc fm = Raise ValueError <-> tc = [].
Proof.
  intros dry tc fmc fm. split.
  - intros H. destruct tc as [|e tc]; [reflexivity|]. exfalso.
    destruct (py_max_spec (Dict.keys (e :: tc))) as (bt & Hbt & _);
      [discriminate|].
    unfold Motor.init in H. rewrite Hbt in H. simpl bind in H.
    assert (Hprop : forall I F,
               Motor.proportional (e :: tc) I F <> Raise ValueError).
    { intros I F E. unfold Motor.proportional in E. simpl in E.
      apply deplete_raises_KeyError in E as [k E]. discriminate. }
    destruct fmc as [[|e' c]|].
    + destruct fm as [F|]; [destruct (truthy F)|]; try discriminate.
      destruct (Motor.proportional (e :: tc) _ F) eqn:E; simpl in H;
        [discriminate|].
      injection H as ->. now apply Hprop in E.
    + unfold Dict.getitem in H.
      destruct (Dict.get (e' :: c) 0); simpl in H; discriminate.
    + destruct fm as [F|]; [destruct (truthy F)|]; try discriminate.
      destruct (Motor.proportional (e :: tc) _ F) eqn:E; simpl in H;
        [discriminate|].
      injection H as ->. now apply Hprop in E.
  - intros ->. reflexivity.
Qed.

Lemma X1_witness :
  Motor.init 1 [] (Some [(3, Fin 1)]) (Some 2) = Raise ValueError.
Proof.
  exact (proj2 (X1_ValueError_iff_empty_thrust_curve 1 []
                  (Some [(3, Fin 1)]) (Some 2)) eq_refl).
Defined.

(** X2.  Over a non-empty thrust curve, a supplied non-empty fuel-mass curve
    that has no entry at time 0 makes [Motor.__init__] raise [KeyError(0)],
    also when a total fuel mass is passed: the supplied curve is looked up
    at key 0 before anything else is tried. *)
Theorem X2_supplied_curve_without_key_0 :
  forall dry tc c fm,
    tc <> [] -> c <> [] -> Dict.get c 0 = None ->
    Motor.init dry tc (Some c) fm = Raise (KeyError 0).
Proof.
  intros dry tc c fm Htc Hc H0.
  destruct (py_max_spec (Dict.keys tc)) as (bt & Hbt & _).
  { destruct tc; [easy | discriminate]. }
  unfold Motor.init. rewrite Hbt. simpl.
  destruct c as [|e c]; [easy|].
  unfold Dict.getitem. now rewrite H0.
Qed.

Lemma X2_witness :
  (example_thrust_curve <> [] /\ [(1, Fin 3); (2, Fin 1)] <> [] /\
   Dict.get [(1, Fin 3); (2, Fin 1)] 0 = None) /\
  Motor.init 1 example_thrust_curve (Some [(1, Fin 3); (2, Fin 1)]) (Some 2)
  = Raise (KeyError 0).
Proof.
  assert (H1 : example_thrust_curve <> []) by discriminate.
  assert (H2 : [(1, Fin 3); (2, Fin 1)] <> []) by discriminate.
  assert (H3 : Dict.get [(1, Fin 3); (2, Fin 1)] 0 = None) by reflexivity.
  split; [exact (conj H1 (conj H2 H3))|].
  exact (X2_supplied_curve_without_key_0 1 example_thrust_curve
           [(1, Fin 3); (2, Fin 1)] (Some 2) H1 H2 H3).
Defined.

(** X3.  Over a non-empty thrust curve, with no fuel-mass curve and the total
    fuel mass left out or equal to 0, [Motor.__init__] succeeds with fuel
    mass 0 and the curve [{0: 0, burn_time: 0}]; that curve has two entries
    unless the burn time is 0, when the two keys coincide and it is
    [{0: 0}]. *)
Theorem X3_no_fuel_information :
  forall dry tc fmc fm,
    tc <> [] -> no_curve fmc -> truthy_opt fm = false ->
    exists bt curve,
      py_max (Dict.keys tc) = Ok bt /\
      Motor.init dry tc fmc fm
      = Ok (Motor.mk dry tc (np_trapz (Dict.values tc) (Dict.keys tc))
              bt curve (Fin 0)) /\
      (bt == 0 -> curve = [(0, Fin 0)]) /\
      (~ bt == 0 -> curve = [(0, Fin 0); (bt, Fin 0)]).
Proof.
  intros dry tc fmc fm Htc Hc Hfm.
  destruct (py_max_spec (Dict.keys tc)) as (bt & Hbt & _).
  { destruct tc; [easy | discriminate]. }
  exists bt, (Dict.setitem [(0, Fin 0)] bt (Fin 0)).
  split; [exact Hbt|]. split.
  - unfold Motor.init. rewrite Hbt. simpl bind.
    destruct Hc as [-> | ->]; destruct fm as [F|]; simpl in Hfm;
      try rewrite Hfm; reflexivity.
  - simpl. destruct (Qeq_bool 0 bt) eqn:E.
    + split; [reflexivity|]. intros N. apply Qeq_bool_eq in E.
      elim N. now symmetry.
    + split; [|reflexivity]. intros Z. apply Qeq_bool_neq in E.
      elim E. now symmetry.
Qed.

Lemma X3_witness :
  (example_thrust_curve <> [] /\ no_curve (Some []) /\
   truthy_opt (Some (0 # 3)) = false) /\
  exists I,
    Motor.init 1 example_thrust_curve (Some []) (Some (0 # 3))
    = Ok (Motor.mk 1 example_thrust_curve I 3 [(0, Fin 0); (3, Fin 0)]
            (Fin 0)).
Proof.
  assert (H1 : example_thrust_curve <> []) by discriminate.
  assert (H2 : no_curve (Some [])) by (right; reflexivity).
  assert (H3 : truthy_opt (Some (0 # 3)) = false) by reflexivity.
  split; [exact (conj H1 (conj H2 H3))|].
  destruct (X3_no_fuel_information 1 example_thrust_curve (Some [])
              (Some (0 # 3)) H1 H2 H3) as (bt & curve & Hbt & Hinit & _ & Hc).
  injection Hbt as <-. eexists. rewrite Hinit.
  rewrite Hc; [reflexivity|]. unfold Qeq. simpl. lia.
Defined.

(** X4.  A thrust curve with a single sample [{t: y}], whatever [t] is, is
    accepted by the proportional branch (no fuel-mass curve, non-zero fuel
    mass [F]): the total impulse is 0, the burn time is [t], and the
    fuel-mass curve is [{0: F}] only, with no entry at [t] unless [t] is
    0. *)
Theorem X4_single_sample :
  forall dry t y fmc F,
    no_curve fmc -> ~ F == 0 ->
    Motor.init dry [(t, y)] fmc (Some F)
    = Ok (Motor.mk dry [(t, y)] 0 t [(0, Fin F)] (Fin F)).
Proof.
  intros dry t y fmc F Hc HF.
  assert (HT : truthy F = true).
  { unfold truthy. destruct (Qeq_bool F 0) eqn:E; [|reflexivity].
    now apply Qeq_bool_eq in E. }
  unfold Motor.init. simpl. destruct Hc as [-> | ->]; now rewrite HT.
Qed.

Lemma X4_witness :
  (no_curve None /\ ~ 2 == 0) /\
  Motor.init 1 single_sample_curve None (Some 2)
  = Ok (Motor.mk 1 single_sample_curve 0 5 [(0, Fin 2)] (Fin 2)).
Proof.
  assert (H1 : no_curve None) by (left; reflexivity).
  assert (H2 : ~ 2 == 0) by (unfold Qeq; simpl; lia).
  split; [exact (conj H1 H2)|].
  exact (X4_single_sample 1 5 10 None 2 H1 H2).
Defined.

(** X5.  When the time keys of the thrust curve are strictly increasing, the
    burn time of every constructed Motor is the last time key. *)
Theorem X5_burn_time_is_last_key :
  forall dry tc fmc fm m,
    increasing (Dict.keys tc) = true ->
    Motor.init dry tc fmc fm = Ok m ->
    Motor.burn_time m = last (Dict.keys tc) 0.
Proof.
  intros dry tc fmc fm m Hinc Hinit.
  destruct (init_inv _ _ _ _ _ Hinit) as (bt & Hbt & _ & _ & _ & ->).
  rewrite py_max_increasing in Hbt; [now injection Hbt|exact Hinc|].
  intros E. rewrite E in Hbt. discriminate.
Qed.

Lemma X5_witness :
  increasing (Dict.keys example_thrust_curve) = true /\
  exists m,
    Motor.init 1 example_thrust_curve None None = Ok m /\
    Motor.burn_time m = 3.
Proof.
  assert (H1 : increasing (Dict.keys example_thrust_curve) = true)
    by reflexivity.
  split; [exact H1|]. eexists. split; [reflexivity|].
  exact (X5_burn_time_is_last_key 1 example_thrust_curve None None _ H1
           eq_refl).
Defined.

(** ** How much fuel is left *)











(** ** Scaling the thrust *)







(** ** Constant thrust *)





(** ** Order of the derived curve *)

(** X11.  In the proportional branch over a thrust curve with pairwise
    different keys whose first key is 0, sorted or not, the keys of the
    derived fuel-mass curve are, in insertion order, the key 0 followed by
    the remaining keys of the thrust curve in their order; the two curves
    have the same number of entries. *)
Theorem X11_fuel_curve_keeps_sample_order :
  forall dry tc fmc F t0 rest,
    no_curve fmc -> ~ F == 0 ->
    Dict.keys tc = t0 :: rest -> t0 == 0 -> distinct (Dict.keys tc) ->
    exists m,
      Motor.init dry tc fmc (Some F) = Ok m /\
      Dict.keys (Motor.fuel_mass_curve m) = 0 :: rest /\
      length (Motor.fuel_mass_curve m) = length tc.
Proof.
  intros dry tc fmc F t0 rest Hc HF Hk H0 Hd.
  destruct (init_proportional dry tc fmc F t0 rest Hc HF Hk H0 Hd)
    as (bt & curve & Hinit & _ & Hkeys & _).
  eexists. split; [exact Hinit|]. simpl. split; [exact Hkeys|].
  assert (E1 : length (Dict.keys curve) = length curve)
    by (unfold Dict.keys; apply length_map).
  assert (E2 : length (Dict.keys tc) = length tc)
    by (unfold Dict.keys; apply length_map).
  rewrite <- E1, <- E2, Hkeys, Hk. reflexivity.
Qed.

Lemma X11_witness :
  (no_curve None /\ ~ 2 == 0 /\
   Dict.keys [(0, 10); (2, 30); (1, 20)] = 0 :: [2; 1] /\ 0 == 0 /\
   distinct (Dict.keys [(0, 10); (2, 30); (1, 20)])) /\
  exists m,
    Motor.init 1 [(0, 10); (2, 30); (1, 20)] None (Some 2) = Ok m /\
    Dict.keys (Motor.fuel_mass_curve m) = [0; 2; 1].
Proof.
  assert (H1 : no_curve None) by (left; reflexivity).
  assert (H2 : ~ 2 == 0) by (unfold Qeq; simpl; lia).
  assert (H3 : Dict.keys [(0, 10); (2, 30); (1, 20)] = 0 :: [2; 1])
    by reflexivity.
  assert (H4 : 0 == 0) by reflexivity.
  assert (H5 : distinct (Dict.keys [(0, 10); (2, 30); (1, 20)])).
  { simpl. repeat split; try tauto;
      intros y Hy; simpl in Hy; unfold Qeq;
      repeat destruct Hy as [<-|Hy]; simpl; try lia; tauto. }
  split; [exact (conj H1 (conj H2 (conj H3 (conj H4 H5))))|].
  destruct (X11_fuel_curve_keeps_sample_order 1 [(0, 10); (2, 30); (1, 20)]
              None 2 0 [2; 1] H1 H2 H3 H4 H5) as (m & Hm & Hk & _).
  exists m. split; assumption.
Defined.

(** ** Rates and gravity are never zero by default *)

(** X12.  When [max_deployment_rate] is not 0, the [max_retraction_rate] of
    every Airbrakes is not 0 either, whatever is passed for it: a zero
    argument is replaced by the deployment rate. *)
Theorem X12_retraction_rate_never_zero :
  forall num_flaps A_flap Cd_brakes angle rate r,
    ~ rate == 0 ->
    ~ Airbrakes.max_retraction_rate
        (Airbrakes.init num_flaps A_flap Cd_brakes angle rate r) == 0.
Proof.
  intros num_flaps A_flap Cd_brakes angle rate r Hrate. simpl.
  destruct r as [x|]; [|exact Hrate]. unfold truthy.
  destruct (Qeq_bool x 0) eqn:E; simpl; [exact Hrate|].
  now apply Qeq_bool_neq.
Qed.

Lemma X12_witness :
  ~ 30 == 0 /\
  ~ Airbrakes.max_retraction_rate
      (Airbrakes.init 3 (4 # 1000) 1 45 30 (Some 0)) == 0.
Proof.
  assert (H1 : ~ 30 == 0) by (unfold Qeq; simpl; lia).
  split; [exact H1|].
  exact (X12_retraction_rate_never_zero 3 (4 # 1000) 1 45 30 (Some 0) H1).
Defined.

(** X13.  When the constant [F_gravity] is not 0 and [get_local_gravity]
    never returns 0, the [local_gravity] of every LaunchConditions is not 0,
    whatever is passed for [local_gravity], [latitude] and [altitude]: a
    zero [local_gravity] argument is never stored. *)
Theorem X13_local_gravity_never_zero :
  forall T_lapse_rate F_gravity get_local_gravity
         pressure temp L elevation direction lg lapse lat alt
         wind_speed heading,
    ~ F_gravity == 0 ->
    (forall latitude altitude, ~ get_local_gravity latitude altitude == 0) ->
    ~ LaunchConditions.local_gravity
        (LaunchConditions.init T_lapse_rate F_gravity get_local_gravity
           pressure temp L elevation direction lg lapse lat alt
           wind_speed heading) == 0.
Proof.
  intros T_lapse_rate F_gravity get_local_gravity
    pressure temp L elevation direction lg lapse lat alt
    wind_speed heading HF Hg.
  simpl. unfold LaunchConditions.resolve_gravity, truthy.
  destruct lg as [g|].
  - destruct (Qeq_bool g 0) eqn:E; simpl; [|now apply Qeq_bool_neq].
    destruct lat as [l|]; [|exact HF].
    destruct (Qeq_bool l 0); simpl; [exact HF | apply Hg].
  - destruct lat as [l|]; [|exact HF].
    destruct (Qeq_bool l 0); simpl; [exact HF | apply Hg].
Qed.

Lemma X13_witness :
  (~ sample_F_gravity == 0 /\
   (forall latitude altitude : Q, ~ (9780327 # 1000000) == 0)) /\
  ~ LaunchConditions.local_gravity
      (LaunchConditions.init sample_T_lapse_rate sample_F_gravity
         (fun _ _ => 9780327 # 1000000) 86400 25 5 None None (Some 0) None
         (Some 45) (Some 1400) None None) == 0.
Proof.
  assert (H1 : ~ sample_F_gravity == 0) by (vm_compute; discriminate).
  assert (H2 : forall latitude altitude : Q, ~ (9780327 # 1000000) == 0)
    by (intros _ _; vm_compute; discriminate).
  split; [exact (conj H1 H2)|].
  exact (X13_local_gravity_never_zero sample_T_lapse_rate sample_F_gravity
           (fun _ _ => 9780327 # 1000000) 86400 25 5 None None (Some 0) None
           (Some 45) (Some 1400) None None H1 H2).
Defined.

(** ** Every way [Motor.__init__] can raise [KeyError] *)

Lemma truthy_true x : truthy x = true -> ~ x == 0.
Proof.
  unfold truthy. rewrite negb_true_iff. apply Qeq_bool_neq.
Qed.

(** X14.  Over a thrust curve with pairwise different keys,
    [Motor.__init__] raises [KeyError(k)] in two situations only: a
    non-empty fuel-mass curve without the key 0 was supplied, and [k] is 0;
    or the proportional branch runs over at least two samples whose first
    key is not 0, and [k] is that first key. *)
Theorem X14_KeyError_cases :
  forall dry tc fmc fm k,
    distinct (Dict.keys tc) ->
    Motor.init dry tc fmc fm = Raise (KeyError k) ->
    (exists c, fmc = Some c /\ c <> [] /\ Dict.get c 0 = None /\ k = 0) \/
    (no_curve fmc /\
     exists F t0 t1 rest,
       fm = Some F /\ ~ F == 0 /\
       Dict.keys tc = t0 :: t1 :: rest /\ ~ t0 == 0 /\ k = t0).
Proof.
  intros dry tc fmc fm k Hd H.
  destruct tc as [|[t0 y0] tc]; [discriminate H|].
  destruct (py_max_spec (Dict.keys ((t0, y0) :: tc))) as (bt & Hbt & _);
    [discriminate|].
  unfold Motor.init in H. rewrite Hbt in H. simpl bind in H.
  assert (Hprop : forall F,
             no_curve fmc -> truthy F = true -> fm = Some F ->
             bind (Motor.proportional ((t0, y0) :: tc)
                     (np_trapz (Dict.values ((t0, y0) :: tc))
                        (Dict.keys ((t0, y0) :: tc))) F)
               (fun curve =>
                  Ok (Motor.mk dry ((t0, y0) :: tc)
                        (np_trapz (Dict.values ((t0, y0) :: tc))
                           (Dict.keys ((t0, y0) :: tc)))
                        bt curve (Fin F)))
             = Raise (KeyError k) ->
             no_curve fmc /\
             exists F t0' t1 rest,
               fm = Some F /\ ~ F == 0 /\
               Dict.keys ((t0, y0) :: tc) = t0' :: t1 :: rest /\
               ~ t0' == 0 /\ k = t0').
  { intros F Hc HT Hfm E. split; [exact Hc|].
    pose proof (truthy_true F HT) as HF.
    destruct (Qeq_bool 0 t0) eqn:E0.
    - apply Qeq_bool_eq in E0.
      destruct (proportional_spec ((t0, y0) :: tc) F t0 (Dict.keys tc))
        as (curve & Hrun & _); [reflexivity | now symmetry | exact Hd|].
      rewrite Hrun in E. discriminate E.
    - destruct tc as [|[t1 y1] tc]; [discriminate E|].
      exists F, t0, t1, (Dict.keys tc).
      split; [exact Hfm|]. split; [exact HF|]. split; [reflexivity|].
      apply Qeq_bool_neq in E0 as N. split.
      + intros Z. apply N. now symmetry.
      + unfold Motor.proportional in E. simpl in E.
        unfold Dict.getitem at 1 in E. simpl in E. rewrite E0 in E.
        simpl in E. now injection E. }
  destruct fmc as [[|e c]|].
  - destruct fm as [F|]; [|discriminate H].
    destruct (truthy F) eqn:HT; [|discriminate H].
    right. apply (Hprop F); auto. now right.
  - left. exists (e :: c). unfold Dict.getitem in H.
    destruct (Dict.get (e :: c) 0) eqn:E; simpl in H; [discriminate H|].
    injection H as <-. split; [reflexivity|]. split; [discriminate|].
    split; reflexivity.
  - destruct fm as [F|]; [|discriminate H].
    destruct (truthy F) eqn:HT; [|discriminate H].
    right. apply (Hprop F); auto. now left.
Qed.

Lemma X14_witness :
  (distinct (Dict.keys [(5, 10); (6, 1)]) /\
   Motor.init 1 [(5, 10); (6, 1)] None (Some 2) = Raise (KeyError 5)) /\
  ((exists c : Dict.t num,
       None = Some c /\ c <> [] /\ Dict.get c 0 = None /\ 5 = 0) \/
   (no_curve None /\
    exists F t0 t1 rest,
      Some 2 = Some F /\ ~ F == 0 /\
      Dict.keys [(5, 10); (6, 1)] = t0 :: t1 :: rest /\
      ~ t0 == 0 /\ 5 = t0)).
Proof.
  assert (H1 : distinct (Dict.keys [(5, 10); (6, 1)]))
    by (apply increasing_distinct; reflexivity).
  assert (H2 : Motor.init 1 [(5, 10); (6, 1)] None (Some 2)
               = Raise (KeyError 5)) by reflexivity.
  split; [exact (conj H1 H2)|].
  exact (X14_KeyError_cases 1 [(5, 10); (6, 1)] None (Some 2) 5 H1 H2).
Defined.
